(** * stats: a lightweight interface for collecting statistics

    A shallow embedding of [stats.go] (package [stats]) and the properties
    of its prefixing decorator, its hook-based test double and its
    nil-tolerant helpers.

    The package has no state of its own: everything it does is a call into
    a [Client] or into a timer handle supplied from outside.  The embedding
    therefore threads an abstract world [W] (the state of whatever lies
    behind the interface) through every call, and lets a call either return
    or panic (Go's nil dereference).  Calls are observed by wrapping a
    client, or a handle, in a recorder that appends to a log. *)

From Stdlib Require Import String List PrimFloat.
Import ListNotations.

Set Implicit Arguments.

Local Open Scope string_scope.
Local Open Scope list_scope.

(** ** Go values *)

(** [float64]: the measurement; the package only passes it along. *)
Definition float64 : Set := PrimFloat.float.

(** ** Effects: state passing with panics *)

(** What a call does to a world of type [W]: it returns a value in a new
    world, or it panics and leaves the world it had reached. *)
Inductive outcome (W A : Type) : Type :=
| Returned (a : A) (w : W)
| Panicked (w : W).

Arguments Returned {W A} a w.
Arguments Panicked {W A} w.

Definition M (W A : Type) : Type := W -> outcome W A.

Definition ret {W A} (a : A) : M W A := fun w => Returned a w.

Definition bind {W A B} (m : M W A) (k : A -> M W B) : M W B :=
  fun w =>
    match m w with
    | Returned a w' => k a w'
    | Panicked w' => Panicked w'
    end.

(** A run-time panic: calling a method on a nil interface value, or reading
    a field through a nil pointer. *)
Definition panic {W A} : M W A := fun w => Panicked w.

Declare Scope go_scope.
Delimit Scope go_scope with go.
Notation "x <- m ;; k" := (bind m (fun x => k))
  (at level 100, m at next level, right associativity) : go_scope.
Notation "m ;;; k" := (bind m (fun _ => k))
  (at level 100, right associativity) : go_scope.
Local Open Scope go_scope.

(** The world after a call, whether it returned or panicked. *)
Definition world_of {W A} (o : outcome W A) : W :=
  match o with
  | Returned _ w => w
  | Panicked w => w
  end.

(** [for _, x := range xs { body }] with the loop-carried locals [l]: the
    slice is read once, its elements are visited in index order, and a
    panic in the body leaves the loop. *)
Fixpoint range {W A L} (xs : list A) (body : A -> L -> M W L) (l : L)
  : M W L :=
  match xs with
  | [] => ret l
  | x :: xs' => l' <- body x l ;; range xs' body l'
  end.

(** A call that acts on the second component of a paired state and leaves
    the first one alone. *)
Definition lift {X W A} (m : M W A) : M (X * W) A :=
  fun s =>
    match m (snd s) with
    | Returned a w' => Returned a (fst s, w')
    | Panicked w' => Panicked (fst s, w')
    end.

(** ** The interfaces *)

(** [interface { End() }]: a non-nil value is whatever implements [End]. *)
Record Ender (W : Type) : Type := mkEnder { End : M W unit }.

(** A value of the interface type, [None] being the nil interface. *)
Definition handle (W : Type) : Type := option (Ender W).

(** Method call [e.End()] on an interface value: nil panics. *)
Definition call_End {W} (e : handle W) : M W unit :=
  match e with
  | Some e' => End e'
  | None => panic
  end.

(** [type Client interface]: the four methods a backend offers. *)
Module Client.

Record methods (W : Type) : Type := {
  BumpAvg : string -> float64 -> list string -> M W unit;
  BumpSum : string -> float64 -> list string -> M W unit;
  BumpHistogram : string -> float64 -> list string -> M W unit;
  BumpTime : string -> list string -> M W (handle W)
}.

(** Method call [c.m(...)] on an interface value: nil panics. *)
Definition invoke {W A} (c : option (methods W)) (m : methods W -> M W A)
  : M W A :=
  match c with
  | Some c' => m c'
  | None => panic
  end.

End Client.

(** A value of type [Client], [None] being the nil interface. *)
Definition Client (W : Type) : Type := option (Client.methods W).

(** [x != nil] *)
Definition not_nil {A} (x : option A) : bool :=
  match x with
  | Some _ => true
  | None => false
  end.

(** A pointer [*T], [None] being nil; reading through nil panics. *)
Definition ptr (T : Type) : Type := option T.

Definition deref {W T} (p : ptr T) : M W T :=
  match p with
  | Some v => ret v
  | None => panic
  end.

(** ** [multiEnder] combines many enders together *)

Module multiEnder.

(** [type multiEnder []interface { End() }] *)
Definition t (W : Type) : Type := list (handle W).

Definition End {W} (m : t W) : M W unit :=
  range m (fun e _ => call_End e) tt.

(** A [multiEnder] held in an [interface { End() }]. *)
Definition as_handle {W} (m : t W) : handle W := Some (mkEnder (End m)).

End multiEnder.

(** ** [noOpEnd] and the package variable [NoOpEnd] *)

Module noOpEnd.

(** [type noOpEnd struct{}] *)
Inductive t : Set := mk.

Definition End {W} (n : t) : M W unit := ret tt.

Definition as_handle {W} (n : t) : handle W := Some (mkEnder (End n)).

End noOpEnd.

Definition NoOpEnd : noOpEnd.t := noOpEnd.mk.

(** ** [prefixClient], the prefixing decorator *)

Module prefixClient.

(** [type prefixClient struct] *)
Record t (W : Type) : Type := mk {
  Prefixes : list string;
  Client : Client W
}.

Section Methods.
Context {W : Type}.

(** The methods have the receiver [p *prefixClient].  The struct it points
    to is part of the state they run in, next to the world of the wrapped
    client; the type is unexported and [PrefixClient] is its only
    constructor, so [p] is never nil. *)
Definition state : Type := (t W * W)%type.

(** [p.f]: a field read through the receiver. *)
Definition field {A} (f : t W -> A) : M state A :=
  fun s => Returned (f (fst s)) s.

Definition BumpAvg (key : string) (val : float64) (tags : list string)
  : M state unit :=
  prefixes <- field (@Prefixes W) ;;
  range prefixes (fun prefix _ =>
    client <- field (@Client W) ;;
    lift (Client.invoke client
            (fun c => Client.BumpAvg c (prefix ++ key)%string val tags))) tt.

Definition BumpSum (key : string) (val : float64) (tags : list string)
  : M state unit :=
  prefixes <- field (@Prefixes W) ;;
  range prefixes (fun prefix _ =>
    client <- field (@Client W) ;;
    lift (Client.invoke client
            (fun c => Client.BumpSum c (prefix ++ key)%string val tags))) tt.

Definition BumpHistogram (key : string) (val : float64) (tags : list string)
  : M state unit :=
  prefixes <- field (@Prefixes W) ;;
  range prefixes (fun prefix _ =>
    client <- field (@Client W) ;;
    lift (Client.invoke client
            (fun c =>
               Client.BumpHistogram c (prefix ++ key)%string val tags))) tt.

Definition BumpTime (key : string) (tags : list string)
  : M state (handle W) :=
  prefixes <- field (@Prefixes W) ;;
  m <- range prefixes (fun prefix (m : multiEnder.t W) =>
         client <- field (@Client W) ;;
         e <- lift (Client.invoke client
                      (fun c => Client.BumpTime c (prefix ++ key)%string tags)) ;;
         ret (m ++ [e])) [] ;;
  ret (multiEnder.as_handle m).

(** A method of [p] run from outside: the caller sees the world, the
    struct stays behind the pointer (no method writes to it). *)
Definition on {A} (p : t W) (m : M state A) : M W A :=
  fun w =>
    match m (p, w) with
    | Returned a s => Returned a (snd s)
    | Panicked s => Panicked (snd s)
    end.

(** The method set of [*prefixClient]. *)
Definition methods (p : t W) : Client.methods W :=
  {| Client.BumpAvg := fun key val tags => on p (BumpAvg key val tags);
     Client.BumpSum := fun key val tags => on p (BumpSum key val tags);
     Client.BumpHistogram :=
       fun key val tags => on p (BumpHistogram key val tags);
     Client.BumpTime := fun key tags => on p (BumpTime key tags) |}.

(** A [*prefixClient] held in a [Client]. *)
Definition as_Client (p : t W) : option (Client.methods W) :=
  Some (methods p).

End Methods.
End prefixClient.

(** [PrefixClient] adds multiple keys for the same value, with each prefix
    added to the key, and calls the underlying client. *)
Definition PrefixClient {W} (prefixes : list string) (client : Client W)
  : Client W :=
  prefixClient.as_Client (prefixClient.mk prefixes client).

(** ** [HookClient], optional hooks for each method *)

Module HookClient.

(** [type HookClient struct]: a func field is [None] when it is nil. *)
Record t (W : Type) : Type := mk {
  BumpAvgHook : option (string -> float64 -> list string -> M W unit);
  BumpSumHook : option (string -> float64 -> list string -> M W unit);
  BumpHistogramHook : option (string -> float64 -> list string -> M W unit);
  BumpTimeHook : option (string -> list string -> M W (handle W))
}.

Section Methods.
Context {W : Type}.

(** [BumpAvg] will call [BumpAvgHook] if defined. *)
Definition BumpAvg (c : ptr (t W)) (key : string) (val : float64)
  (tags : list string) : M W unit :=
  s <- deref c ;;
  match BumpAvgHook s with
  | Some hook => hook key val tags
  | None => ret tt
  end.

(** [BumpSum] will call [BumpSumHook] if defined. *)
Definition BumpSum (c : ptr (t W)) (key : string) (val : float64)
  (tags : list string) : M W unit :=
  s <- deref c ;;
  match BumpSumHook s with
  | Some hook => hook key val tags
  | None => ret tt
  end.

(** [BumpHistogram] will call [BumpHistogramHook] if defined. *)
Definition BumpHistogram (c : ptr (t W)) (key : string) (val : float64)
  (tags : list string) : M W unit :=
  s <- deref c ;;
  match BumpHistogramHook s with
  | Some hook => hook key val tags
  | None => ret tt
  end.

(** [BumpTime] will call [BumpTimeHook] if defined. *)
Definition BumpTime (c : ptr (t W)) (key : string) (tags : list string)
  : M W (handle W) :=
  s <- deref c ;;
  match BumpTimeHook s with
  | Some hook => hook key tags
  | None => ret (noOpEnd.as_handle NoOpEnd)
  end.

(** The method set of [*HookClient]. *)
Definition methods (c : ptr (t W)) : Client.methods W :=
  {| Client.BumpAvg := BumpAvg c;
     Client.BumpSum := BumpSum c;
     Client.BumpHistogram := BumpHistogram c;
     Client.BumpTime := BumpTime c |}.

(** A [*HookClient] held in a [Client]; the interface value is not nil
    even when the pointer is. *)
Definition as_Client (c : ptr (t W)) : Client W := Some (methods c).

End Methods.
End HookClient.

(** ** The package functions, for an optional [Client] *)

(** [BumpAvg] calls [BumpAvg] on the [Client] if it isn't nil. *)
Definition BumpAvg {W} (c : Client W) (key : string) (val : float64)
  (tags : list string) : M W unit :=
  if not_nil c
  then Client.invoke c (fun c' => Client.BumpAvg c' key val tags)
  else ret tt.

(** [BumpSum] calls [BumpSum] on the [Client] if it isn't nil. *)
Definition BumpSum {W} (c : Client W) (key : string) (val : float64)
  (tags : list string) : M W unit :=
  if not_nil c
  then Client.invoke c (fun c' => Client.BumpSum c' key val tags)
  else ret tt.

(** [BumpHistogram] calls [BumpHistogram] on the [Client] if it isn't
    nil. *)
Definition BumpHistogram {W} (c : Client W) (key : string) (val : float64)
  (tags : list string) : M W unit :=
  if not_nil c
  then Client.invoke c (fun c' => Client.BumpHistogram c' key val tags)
  else ret tt.

(** [BumpTime] calls [BumpTime] on the [Client] if it isn't nil.  If the
    [Client] is nil it still returns a valid return value which will be a
    no-op. *)
Definition BumpTime {W} (c : Client W) (key : string) (tags : list string)
  : M W (handle W) :=
  if not_nil c
  then Client.invoke c (fun c' => Client.BumpTime c' key tags)
  else ret (noOpEnd.as_handle NoOpEnd).

(** ** Observing calls *)

(** The three value-carrying operations of the interface. *)
Inductive op : Set := Avg | Sum | Histogram.

(** The [o] method of a client. *)
Definition bump_method {W} (o : op) (c : Client.methods W)
  : string -> float64 -> list string -> M W unit :=
  match o with
  | Avg => Client.BumpAvg c
  | Sum => Client.BumpSum c
  | Histogram => Client.BumpHistogram c
  end.

(** The package function for [o]. *)
Definition bump {W} (o : op) (c : Client W)
  : string -> float64 -> list string -> M W unit :=
  match o with
  | Avg => BumpAvg c
  | Sum => BumpSum c
  | Histogram => BumpHistogram c
  end.

(** One received call, with the arguments it carried.  [Ended i] is a call
    of [End] on the handle numbered [i]. *)
Inductive call : Set :=
| Bump (o : op) (key : string) (val : float64) (tags : list string)
| Time (key : string) (tags : list string)
| Ended (i : nat).

(** Append an entry to the log kept next to the world. *)
Definition record {W} (c : call) : M (list call * W) unit :=
  fun s => Returned tt (fst s ++ [c], snd s).

(** A handle of the world [W] used where a log is kept as well. *)
Definition lift_handle {X W} (h : handle W) : handle (X * W) :=
  option_map (fun e => mkEnder (lift (End e))) h.

(** The client [c] with every call logged on entry. *)
Definition recorded {W} (c : Client.methods W)
  : Client.methods (list call * W) :=
  {| Client.BumpAvg := fun key val tags =>
       record (Bump Avg key val tags) ;;; lift (Client.BumpAvg c key val tags);
     Client.BumpSum := fun key val tags =>
       record (Bump Sum key val tags) ;;; lift (Client.BumpSum c key val tags);
     Client.BumpHistogram := fun key val tags =>
       record (Bump Histogram key val tags) ;;;
       lift (Client.BumpHistogram c key val tags);
     Client.BumpTime := fun key tags =>
       record (Time key tags) ;;;
       h <- lift (Client.BumpTime c key tags) ;;
       ret (lift_handle h) |}.

(** The handle [e], numbered [i], with every call of [End] logged on
    entry. *)
Definition recorded_handle {W} (i : nat) (e : Ender W)
  : handle (list call * W) :=
  Some (mkEnder (record (Ended i) ;;; lift (End e))).

(** Number the handles of a list from [i] on and log their [End]s. *)
Fixpoint recorded_handles {W} (i : nat) (es : list (Ender W))
  : multiEnder.t (list call * W) :=
  match es with
  | [] => []
  | e :: es' => recorded_handle i e :: recorded_handles (S i) es'
  end.

(** A call that returns, whatever the world it starts in. *)
Definition returns {W A} (m : M W A) : Prop :=
  forall w, exists a w', m w = Returned a w'.

(** [n] calls in a row. *)
Fixpoint times {W} (n : nat) (m : M W unit) : M W unit :=
  match n with
  | O => ret tt
  | S n' => m ;;; times n' m
  end.

(** The calls one after the other, their results in call order. *)
Fixpoint in_turn {W A} (ms : list (M W A)) : M W (list A) :=
  match ms with
  | [] => ret []
  | m :: ms' => a <- m ;; r <- in_turn ms' ;; ret (a :: r)
  end.

(** ** Backends used as concrete instances *)

(** A backend whose world is the number of calls it has received; its
    timer handle counts the call of [End] as well. *)
Definition counting : Client.methods nat :=
  {| Client.BumpAvg := fun _ _ _ n => Returned tt (S n);
     Client.BumpSum := fun _ _ _ n => Returned tt (S n);
     Client.BumpHistogram := fun _ _ _ n => Returned tt (S n);
     Client.BumpTime := fun _ _ n =>
       Returned (Some (mkEnder (fun m => Returned tt (S m)))) (S n) |}.

(** A backend whose [BumpTime] hands out the nil interface. *)
Definition nil_timer : Client.methods nat :=
  {| Client.BumpAvg := fun _ _ _ n => Returned tt (S n);
     Client.BumpSum := fun _ _ _ n => Returned tt (S n);
     Client.BumpHistogram := fun _ _ _ n => Returned tt (S n);
     Client.BumpTime := fun _ _ n => Returned None (S n) |}.

(** Two timer handles of a backend that counts: one adds one, the other
    adds ten. *)
Definition tick : Ender nat := mkEnder (fun n => Returned tt (S n)).

Definition tock : Ender nat := mkEnder (fun n => Returned tt (10 + n)).

(** A test double whose hooks note the key they were called with. *)
Definition noting : HookClient.t (list string) :=
  {| HookClient.BumpAvgHook := Some (fun key _ _ l => Returned tt (key :: l));
     HookClient.BumpSumHook := Some (fun key _ _ l => Returned tt (key :: l));
     HookClient.BumpHistogramHook :=
       Some (fun key _ _ l => Returned tt (key :: l));
     HookClient.BumpTimeHook := Some (fun key _ l => Returned None (key :: l)) |}.

(** A test double with no hook set. *)
Definition hookless : HookClient.t (list string) :=
  HookClient.mk None None None None.

(** The client [c] with every call logged on entry, and with every timer
    handle it hands out numbered by the place of its [Time] entry in the
    log; the [End] of the handle is logged under that number. *)
Definition timed {W} (c : Client.methods W)
  : Client.methods (list call * W) :=
  {| Client.BumpAvg := Client.BumpAvg (recorded c);
     Client.BumpSum := Client.BumpSum (recorded c);
     Client.BumpHistogram := Client.BumpHistogram (recorded c);
     Client.BumpTime := fun key tags s =>
       (record (Time key tags) ;;;
        h <- lift (Client.BumpTime c key tags) ;;
        ret match h with
            | Some e => recorded_handle (length (fst s)) e
            | None => None
            end) s |}.

(** A backend that panics on the key [bad] and counts every other call. *)
Definition fragile (bad : string) : Client.methods nat :=
  {| Client.BumpAvg := fun key _ _ n =>
       if String.eqb key bad then Panicked n else Returned tt (S n);
     Client.BumpSum := fun key _ _ n =>
       if String.eqb key bad then Panicked n else Returned tt (S n);
     Client.BumpHistogram := fun key _ _ n =>
       if String.eqb key bad then Panicked n else Returned tt (S n);
     Client.BumpTime := fun key _ n =>
       if String.eqb key bad then Panicked n else Returned (Some tick) (S n) |}.

(** * Properties *)

(** ** Loops *)

Section Loops.
Context {X W A L : Type}.

(** A loop whose body only acts on the second component of the state does
    so as a whole. *)
Lemma range_lift (x0 : X) (bs : A -> L -> M (X * W) L) (b : A -> L -> M W L) :
  (forall a l w, bs a l (x0, w) = lift (b a l) (x0, w)) ->
  forall xs l w, range xs bs l (x0, w) = lift (range xs b l) (x0, w).
Proof.
  intros Hbody xs; induction xs as [|x xs IH]; intros l w.
  - reflexivity.
  - cbn [range]. unfold bind at 1. rewrite Hbody.
    unfold lift, bind. cbn [snd fst].
    destruct (b x l w) as [l' w'|w'].
    + rewrite IH. reflexivity.
    + reflexivity.
Qed.

(** A call that returns hands its result to what follows. *)
Lemma bind_Returned {B} (m : M W A) (k : A -> M W B) w a w' :
  m w = Returned a w' -> bind m k w = k a w'.
Proof.
  intros H. unfold bind. now rewrite H.
Qed.

(** [lift] never touches the first component. *)
Lemma lift_fst (m : M W A) (s : X * W) : fst (world_of (lift m s)) = fst s.
Proof.
  unfold lift. destruct (m (snd s)); reflexivity.
Qed.

End Loops.

(** ** The decorator's loops, seen from the wrapped client *)

Section Decorator.
Context {W : Type}.
Implicit Types (p : prefixClient.t W) (key : string) (val : float64)
  (tags : list string).

(** Each method of the decorator is a loop of calls on the wrapped client
    that leaves the receiver as it found it. *)
Lemma BumpAvg_loop p key val tags w :
  prefixClient.BumpAvg key val tags (p, w) =
  lift (range (prefixClient.Prefixes p) (fun prefix _ =>
          Client.invoke (prefixClient.Client p)
            (fun c => Client.BumpAvg c (prefix ++ key)%string val tags)) tt)
       (p, w).
Proof.
  unfold prefixClient.BumpAvg, bind at 1, prefixClient.field; cbn [fst].
  apply range_lift; intros; reflexivity.
Qed.

Lemma BumpSum_loop p key val tags w :
  prefixClient.BumpSum key val tags (p, w) =
  lift (range (prefixClient.Prefixes p) (fun prefix _ =>
          Client.invoke (prefixClient.Client p)
            (fun c => Client.BumpSum c (prefix ++ key)%string val tags)) tt)
       (p, w).
Proof.
  unfold prefixClient.BumpSum, bind at 1, prefixClient.field; cbn [fst].
  apply range_lift; intros; reflexivity.
Qed.

Lemma BumpHistogram_loop p key val tags w :
  prefixClient.BumpHistogram key val tags (p, w) =
  lift (range (prefixClient.Prefixes p) (fun prefix _ =>
          Client.invoke (prefixClient.Client p)
            (fun c =>
               Client.BumpHistogram c (prefix ++ key)%string val tags)) tt)
       (p, w).
Proof.
  unfold prefixClient.BumpHistogram, bind at 1, prefixClient.field; cbn [fst].
  apply range_lift; intros; reflexivity.
Qed.

Lemma BumpTime_loop p key tags w :
  prefixClient.BumpTime key tags (p, w) =
  lift (m <- range (prefixClient.Prefixes p) (fun prefix m =>
               e <- Client.invoke (prefixClient.Client p)
                      (fun c => Client.BumpTime c (prefix ++ key)%string tags) ;;
               ret (m ++ [e])) [] ;;
        ret (multiEnder.as_handle m))
       (p, w).
Proof.
  unfold prefixClient.BumpTime, bind at 1, prefixClient.field; cbn [fst].
  unfold bind at 1. unfold prefixClient.state, multiEnder.t.
  rewrite range_lift with
    (b := fun prefix m =>
            e <- Client.invoke (prefixClient.Client p)
                   (fun c => Client.BumpTime c (prefix ++ key)%string tags) ;;
            ret (m ++ [e])).
  - unfold lift, bind; cbn [snd fst].
    match goal with |- context [range ?xs ?b ?l w] =>
      destruct (range xs b l w) end; reflexivity.
  - intros prefix m w0. unfold bind, lift, prefixClient.field; cbn [fst snd].
    destruct (Client.invoke _ _ w0); reflexivity.
Qed.

End Decorator.

(** ** What a recorder sees *)

Lemma flat_map_one {A B} (f : A -> B) (xs : list A) :
  flat_map (fun x => [f x]) xs = map f xs.
Proof.
  induction xs as [|x xs IH]; cbn; [reflexivity | now rewrite IH].
Qed.

Lemma length_flat_map_same {A B} (f : A -> list B) (n : nat) (xs : list A) :
  (forall x, length (f x) = n) -> length (flat_map f xs) = length xs * n.
Proof.
  intros Hf; induction xs as [|x xs IH]; cbn; [reflexivity|].
  rewrite length_app, Hf, IH. reflexivity.
Qed.

Section Recording.
Context {W : Type}.
Implicit Types (log : list call) (w : W).

(** A logged call notes its arguments, then runs the call itself. *)
Lemma recorded_bump (o : op) (c : Client.methods W) key val tags log w :
  bump_method o (recorded c) key val tags (log, w) =
  lift (bump_method o c key val tags) (log ++ [Bump o key val tags], w).
Proof.
  destruct o; reflexivity.
Qed.

(** A loop whose body extends the log and returns extends the log by the
    bodies' entries, in the order of the slice. *)
Lemma range_log {A} (body : A -> M (list call * W) unit)
  (calls : A -> list call) :
  (forall x log w, exists w',
      body x (log, w) = Returned tt (log ++ calls x, w')) ->
  forall xs log w, exists w',
    range xs (fun x _ => body x) tt (log, w) =
    Returned tt (log ++ flat_map calls xs, w').
Proof.
  intros Hbody xs; induction xs as [|x xs IH]; intros log w.
  - exists w. cbn. now rewrite app_nil_r.
  - destruct (Hbody x log w) as [w1 H1].
    destruct (IH (log ++ calls x) w1) as [w2 H2].
    exists w2. cbn [range flat_map]. unfold bind. rewrite H1.
    rewrite H2, app_assoc. reflexivity.
Qed.

(** One decorator on top of a client whose [o] method extends the log by
    [calls key]: the entries of all prefixes, prefix by prefix. *)
Lemma decorated_bump (o : op) (cl : Client (list call * W)) val tags
  (calls : string -> list call) :
  (forall key log w, exists w',
      Client.invoke cl (fun d => bump_method o d key val tags) (log, w) =
      Returned tt (log ++ calls key, w')) ->
  forall prefixes key log w, exists w',
    Client.invoke (PrefixClient prefixes cl)
      (fun d => bump_method o d key val tags) (log, w) =
    Returned tt
      (log ++ flat_map (fun prefix => calls (prefix ++ key)%string) prefixes,
       w').
Proof.
  intros Hcl prefixes key log w.
  destruct (range_log
              (fun prefix =>
                 Client.invoke cl
                   (fun d => bump_method o d (prefix ++ key)%string val tags))
              (fun prefix => calls (prefix ++ key)%string)
              (fun prefix => Hcl (prefix ++ key)%string) prefixes log w)
    as [w' Hloop].
  exists w'.
  destruct o; cbn [PrefixClient prefixClient.as_Client prefixClient.methods
                   Client.invoke
                   bump_method Client.BumpAvg Client.BumpSum
                   Client.BumpHistogram] in *;
    unfold prefixClient.on;
    [rewrite BumpAvg_loop | rewrite BumpSum_loop | rewrite BumpHistogram_loop];
    unfold lift; cbn [fst snd prefixClient.Prefixes prefixClient.Client];
    rewrite Hloop; reflexivity.
Qed.

(** The decorator on top of a recorded backend whose method returns. *)
Lemma recorded_prefix_bump (c : Client.methods W) (o : op) val tags :
  (forall key' val' tags', returns (bump_method o c key' val' tags')) ->
  forall prefixes key log w, exists w',
    Client.invoke (PrefixClient prefixes (Some (recorded c)))
      (fun d => bump_method o d key val tags) (log, w) =
    Returned tt
      (log ++ map (fun prefix => Bump o (prefix ++ key)%string val tags)
                prefixes, w').
Proof.
  intros Hc prefixes key log w.
  rewrite <- flat_map_one.
  apply (decorated_bump o (Some (recorded c)) val tags
           (fun key' => [Bump o key' val tags])).
  intros key' log0 w0. cbn [Client.invoke].
  rewrite recorded_bump. unfold lift; cbn [fst snd].
  destruct (Hc key' val tags w0) as [[] [w1 H1]]. rewrite H1. now exists w1.
Qed.

End Recording.

(** ** The prefixing decorator *)

(** C1.  One [BumpSum] (likewise [BumpAvg], [BumpHistogram]) through the
    decorator built from the prefix list [P] reaches the wrapped client as
    exactly [length P] calls of the same operation, with the keys [P[0]+k],
    [P[1]+k], ... in that order, each with the value [v] and the tags [t]
    of the original call.  The wrapped client is any backend whose method
    returns; it is observed through [recorded].  The statement holds for
    every [P], the non-empty ones included. *)
Theorem prefix_bump_one_call_per_prefix :
  forall (W : Type) (c : Client.methods W) (o : op) (P : list string)
         (k : string) (v : float64) (t : list string),
    (forall k' v' t', returns (bump_method o c k' v' t')) ->
    forall (log : list call) (w : W),
    exists w',
      Client.invoke (PrefixClient P (Some (recorded c)))
        (fun d => bump_method o d k v t) (log, w) =
      Returned tt
        (log ++ map (fun prefix => Bump o (prefix ++ k)%string v t) P, w')
      /\ length (map (fun prefix => Bump o (prefix ++ k)%string v t) P) =
         length P.
Proof.
  intros W c o P k v t Hc log w.
  destruct (recorded_prefix_bump c o v t Hc P k log w) as [w' Hw'].
  exists w'. split; [exact Hw' | apply length_map].
Qed.

Lemma prefix_bump_one_call_per_prefix_witness :
  exists w',
    Client.invoke (PrefixClient ["svc."; "env.prod."] (Some (recorded counting)))
      (fun d => bump_method Sum d "requests" 3%float []) ([], 0) =
    Returned tt
      ([Bump Sum "svc.requests" 3%float [];
        Bump Sum "env.prod.requests" 3%float []], w')
    /\ length [Bump Sum "svc.requests" 3%float [];
               Bump Sum "env.prod.requests" 3%float []] = 2.
Proof.
  apply (prefix_bump_one_call_per_prefix counting Sum ["svc."; "env.prod."]
           "requests" 3%float []).
  intros k' v' t' n. exists tt, (S n). reflexivity.
Defined.

(** C8, as the code has it.  Decorators compose: through
    [PrefixClient(P1, PrefixClient(P2, c))] one bump reaches [c] as
    [length P1 * length P2] calls, with [i] outermost (all of [P2] for
    [P1[0]], then all of [P2] for [P1[1]], ...), value and tags unchanged.
    The outer decorator prefixes first and the inner one prefixes the
    result, so the key of call [(i, j)] is [P2[j]+(P1[i]+k)]. *)
Theorem nested_prefix_bump_calls :
  forall (W : Type) (c : Client.methods W) (o : op) (P1 P2 : list string)
         (k : string) (v : float64) (t : list string),
    (forall k' v' t', returns (bump_method o c k' v' t')) ->
    forall (log : list call) (w : W),
    exists w',
      Client.invoke (PrefixClient P1 (PrefixClient P2 (Some (recorded c))))
        (fun d => bump_method o d k v t) (log, w) =
      Returned tt
        (log ++
         flat_map (fun p1 =>
           map (fun p2 => Bump o (p2 ++ (p1 ++ k))%string v t) P2) P1, w')
      /\ length
           (flat_map (fun p1 =>
              map (fun p2 => Bump o (p2 ++ (p1 ++ k))%string v t) P2) P1) =
         length P1 * length P2.
Proof.
  intros W c o P1 P2 k v t Hc log w.
  destruct (decorated_bump o (PrefixClient P2 (Some (recorded c))) v t
              (fun key => map (fun p2 => Bump o (p2 ++ key)%string v t) P2))
    with (prefixes := P1) (key := k) (log := log) (w := w) as [w' Hw'].
  - intros key log0 w0.
    apply (recorded_prefix_bump c o v t Hc).
  - exists w'. split; [exact Hw'|].
    apply length_flat_map_same. intros p1. apply length_map.
Qed.

Lemma nested_prefix_bump_calls_witness :
  exists w',
    Client.invoke
      (PrefixClient ["a."; "b."] (PrefixClient ["x."; "y."]
                                    (Some (recorded counting))))
      (fun d => bump_method Avg d "k" 1%float ["t"]) ([], 0) =
    Returned tt
      ([Bump Avg "x.a.k" 1%float ["t"]; Bump Avg "y.a.k" 1%float ["t"];
        Bump Avg "x.b.k" 1%float ["t"]; Bump Avg "y.b.k" 1%float ["t"]], w')
    /\ length
         [Bump Avg "x.a.k" 1%float ["t"]; Bump Avg "y.a.k" 1%float ["t"];
          Bump Avg "x.b.k" 1%float ["t"]; Bump Avg "y.b.k" 1%float ["t"]] = 4.
Proof.
  apply (nested_prefix_bump_calls counting Avg ["a."; "b."] ["x."; "y."]
           "k" 1%float ["t"]).
  intros k' v' t' n. exists tt, (S n). reflexivity.
Defined.

(** C8, as the claim words it: the keys would be [P1[i]+(P2[j]+k)], the
    outer prefix in front.  With [P1 = ["a."]], [P2 = ["b."]] and the key
    ["x"] the backend receives ["b.a.x"], not ["a.b.x"]. *)
Lemma nested_prefix_keys_outer_first_fails :
  ~ (forall (W : Type) (c : Client.methods W) (o : op) (P1 P2 : list string)
            (k : string) (v : float64) (t : list string),
        (forall k' v' t', returns (bump_method o c k' v' t')) ->
        forall (log : list call) (w : W),
        exists w',
          Client.invoke
            (PrefixClient P1 (PrefixClient P2 (Some (recorded c))))
            (fun d => bump_method o d k v t) (log, w) =
          Returned tt
            (log ++
             flat_map (fun p1 =>
               map (fun p2 => Bump o (p1 ++ (p2 ++ k))%string v t) P2) P1,
             w')).
Proof.
  intros H.
  destruct (H nat counting Sum ["a."] ["b."] "x" 1%float []) with
    (log := @nil call) (w := 0) as [w' Hw'].
  - intros k' v' t' n. exists tt, (S n). reflexivity.
  - cbn in Hw'. discriminate Hw'.
Qed.

Section Timers.
Context {W : Type}.
Implicit Types (log : list call) (w : W).

(** The timer loop over a recorded backend: one [BumpTime] per prefix, the
    handles appended to the ones collected so far. *)
Lemma recorded_time_loop (c : Client.methods W) key tags :
  (forall key' tags', returns (Client.BumpTime c key' tags')) ->
  forall prefixes (m : multiEnder.t (list call * W)) log w,
  exists hs w',
    in_turn (map (fun prefix => Client.BumpTime c (prefix ++ key)%string tags)
               prefixes) w = Returned hs w'
    /\ length hs = length prefixes
    /\ range prefixes (fun prefix m' =>
         e <- Client.invoke (Some (recorded c))
                (fun d => Client.BumpTime d (prefix ++ key)%string tags) ;;
         ret (m' ++ [e])) m (log, w) =
       Returned (m ++ map lift_handle hs)
         (log ++ map (fun prefix => Time (prefix ++ key)%string tags) prefixes,
          w').
Proof.
  intros Hc prefixes; induction prefixes as [|prefix prefixes IH];
    intros m log w.
  - exists [], w. cbn. now rewrite !app_nil_r.
  - destruct (Hc (prefix ++ key)%string tags w) as [h [w1 H1]].
    destruct (IH (m ++ [lift_handle h]) (log ++ [Time (prefix ++ key) tags]) w1)
      as [hs [w2 [Hturn [Hlen Hloop]]]].
    exists (h :: hs), w2. split; [|split].
    + cbn [map in_turn]. unfold bind at 1. rewrite H1.
      unfold bind at 1. rewrite Hturn. reflexivity.
    + cbn. now rewrite Hlen.
    + cbn [range map].
      rewrite bind_Returned with
        (a := m ++ [lift_handle h])
        (w' := (log ++ [Time (prefix ++ key) tags], w1)).
      * rewrite Hloop, <- !app_assoc. reflexivity.
      * cbn [Client.invoke recorded Client.BumpTime].
        unfold bind, record, lift, ret; cbn [fst snd]. now rewrite H1.
Qed.

End Timers.

(** C4.  [BumpTime] through the decorator calls [BumpTime] on the wrapped
    client once per prefix, in list order, with the key [prefix+k] and the
    tags [t]; the [length P] handles these calls return (here [hs], the
    results of the calls made in turn) are collected in call order into one
    [multiEnder], and that is the handle the caller gets. *)
Theorem prefix_BumpTime_collects_handles :
  forall (W : Type) (c : Client.methods W) (P : list string) (k : string)
         (t : list string),
    (forall k' t', returns (Client.BumpTime c k' t')) ->
    forall (log : list call) (w : W),
    exists hs w',
      in_turn (map (fun prefix => Client.BumpTime c (prefix ++ k)%string t) P)
        w = Returned hs w'
      /\ length hs = length P
      /\ Client.invoke (PrefixClient P (Some (recorded c)))
           (fun d => Client.BumpTime d k t) (log, w) =
         Returned (multiEnder.as_handle (map lift_handle hs))
           (log ++ map (fun prefix => Time (prefix ++ k)%string t) P, w').
Proof.
  intros W c P k t Hc log w.
  destruct (recorded_time_loop c k t Hc P [] log w)
    as [hs [w' [Hturn [Hlen Hloop]]]].
  exists hs, w'. split; [exact Hturn|]. split; [exact Hlen|].
  cbn [PrefixClient prefixClient.as_Client prefixClient.methods
       Client.invoke Client.BumpTime].
  unfold prefixClient.on. rewrite BumpTime_loop.
  unfold lift; cbn [fst snd prefixClient.Prefixes prefixClient.Client].
  rewrite bind_Returned with (1 := Hloop). reflexivity.
Qed.

Lemma prefix_BumpTime_collects_handles_witness :
  exists hs w',
    in_turn (map (fun prefix => Client.BumpTime counting (prefix ++ "op")%string
                                  ["t"]) ["a."; "b."]) 0 = Returned hs w'
    /\ length hs = 2
    /\ Client.invoke (PrefixClient ["a."; "b."] (Some (recorded counting)))
         (fun d => Client.BumpTime d "op" ["t"]) ([], 0) =
       Returned (multiEnder.as_handle (map lift_handle hs))
         ([Time "a.op" ["t"]; Time "b.op" ["t"]], w').
Proof.
  apply (prefix_BumpTime_collects_handles counting ["a."; "b."] "op" ["t"]).
  intros k' t' n. eexists; eexists. reflexivity.
Defined.

(** ** [multiEnder] and [NoOpEnd] *)

Section Ending.
Context {W : Type}.

(** Ending the recorded handles numbered from [i] on. *)
Lemma recorded_handles_End (es : list (Ender W)) :
  Forall (fun e => returns (End e)) es ->
  forall i (log : list call) (w : W),
  exists w',
    in_turn (map (@End W) es) w = Returned (map (fun _ => tt) es) w'
    /\ multiEnder.End (recorded_handles i es) (log, w) =
       Returned tt (log ++ map Ended (seq i (length es)), w').
Proof.
  induction 1 as [|e es He _ IH]; intros i log w.
  - exists w. cbn. now rewrite app_nil_r.
  - destruct (He w) as [[] [w1 H1]].
    destruct (IH (S i) (log ++ [Ended i]) w1) as [w2 [Hturn Hloop]].
    exists w2. split.
    + cbn [map in_turn]. rewrite bind_Returned with (1 := H1).
      rewrite bind_Returned with (1 := Hturn). reflexivity.
    + unfold multiEnder.End in *. cbn [recorded_handles range length seq map].
      rewrite bind_Returned with (a := tt) (w' := (log ++ [Ended i], w1)).
      * rewrite Hloop, <- app_assoc. reflexivity.
      * cbn [recorded_handle call_End End].
        unfold bind, record, lift; cbn [fst snd]. now rewrite H1.
Qed.

End Ending.

(** C5.  [End] on a [multiEnder] that wraps the [N] timer handles [es]
    calls [End] on each of them exactly once, in the order they were
    collected: the recorder sees handle 0, then handle 1, ... up to handle
    [N-1], and the backend is left where these calls, made in turn, lead.
    A timer handle is a non-nil value whose [End] returns. *)
Theorem multiEnder_End_each_once_in_order :
  forall (W : Type) (es : list (Ender W)),
    Forall (fun e => returns (End e)) es ->
    forall (log : list call) (w : W),
    exists w',
      in_turn (map (@End W) es) w = Returned (map (fun _ => tt) es) w'
      /\ call_End (multiEnder.as_handle (recorded_handles 0 es)) (log, w) =
         Returned tt (log ++ map Ended (seq 0 (length es)), w').
Proof.
  intros W es Hes log w.
  destruct (recorded_handles_End Hes 0 log w) as [w' [Hturn Hloop]].
  exists w'. split; [exact Hturn | exact Hloop].
Qed.

Lemma multiEnder_End_each_once_in_order_witness :
  exists w',
    in_turn (map (@End nat) [tick; tock; tick]) 5 = Returned [tt; tt; tt] w'
    /\ call_End (multiEnder.as_handle (recorded_handles 0 [tick; tock; tick]))
         ([], 5) =
       Returned tt ([Ended 0; Ended 1; Ended 2], w').
Proof.
  apply (@multiEnder_End_each_once_in_order nat [tick; tock; tick]).
  repeat constructor; intros n; eexists; eexists; reflexivity.
Defined.

(** C7.  [End] on the shared [NoOpEnd] can be called any number of times:
    every one of the [n] calls returns, and the world is as it was. *)
Theorem NoOpEnd_End_any_number_of_times :
  forall (W : Type) (n : nat) (w : W),
    times n (call_End (noOpEnd.as_handle NoOpEnd)) w = Returned tt w.
Proof.
  intros W n w; induction n as [|n IH].
  - reflexivity.
  - cbn [times]. rewrite bind_Returned with (a := tt) (w' := w).
    + exact IH.
    + reflexivity.
Qed.

(** C6.  With an empty prefix list [BumpAvg], [BumpSum] and
    [BumpHistogram] return without a call on the wrapped client, whatever
    that client is (nil, or a recorder: the world, log included, is
    untouched); [BumpTime] likewise makes no call and returns a
    [multiEnder] of zero handles, and [End] on that handle does nothing. *)
Theorem empty_prefix_list_no_calls :
  forall (W : Type) (c : Client W) (o : op) (k : string) (v : float64)
         (t : list string) (w : W),
    Client.invoke (PrefixClient [] c) (fun d => bump_method o d k v t) w =
    Returned tt w
    /\ Client.invoke (PrefixClient [] c) (fun d => Client.BumpTime d k t) w =
       Returned (multiEnder.as_handle []) w
    /\ call_End (multiEnder.as_handle []) w = Returned tt w.
Proof.
  intros W c o k v t w. split; [|split].
  - destruct o; reflexivity.
  - reflexivity.
  - reflexivity.
Qed.

(** C9.  Every method of the decorator leaves the struct behind its
    receiver as it was, prefix list and wrapped client alike, whether the
    call returns or the wrapped client panics. *)
Theorem prefixClient_receiver_unchanged :
  forall (W : Type) (p : prefixClient.t W) (k : string) (v : float64)
         (t : list string) (w : W),
    fst (world_of (prefixClient.BumpAvg k v t (p, w))) = p
    /\ fst (world_of (prefixClient.BumpSum k v t (p, w))) = p
    /\ fst (world_of (prefixClient.BumpHistogram k v t (p, w))) = p
    /\ fst (world_of (prefixClient.BumpTime k t (p, w))) = p.
Proof.
  intros W p k v t w. repeat split.
  - rewrite BumpAvg_loop. apply lift_fst.
  - rewrite BumpSum_loop. apply lift_fst.
  - rewrite BumpHistogram_loop. apply lift_fst.
  - rewrite BumpTime_loop. apply lift_fst.
Qed.

(** ** The package functions and the test double *)

(** C2.  With a nil client [BumpAvg], [BumpSum] and [BumpHistogram] return
    at once and nothing is called (the world is as it was), and [BumpTime]
    returns the shared [NoOpEnd]; with a client [c] each function is the
    call of the same method of [c] with the same key, value and tags, and
    [BumpTime] returns what [c] returns. *)
Theorem package_functions_nil_or_forward :
  forall (W : Type) (k : string) (v : float64) (t : list string) (w : W),
    (forall o, bump o None k v t w = Returned tt w)
    /\ BumpTime None k t w = Returned (noOpEnd.as_handle NoOpEnd) w
    /\ (forall c o, bump o (Some c) k v t w = bump_method o c k v t w)
    /\ (forall c, BumpTime (Some c) k t w = Client.BumpTime c k t w).
Proof.
  intros W k v t w. split; [|split; [|split]].
  - intros o; destruct o; reflexivity.
  - reflexivity.
  - intros c o; destruct o; reflexivity.
  - intros c; reflexivity.
Qed.

(** C3.  A [HookClient] method whose hook is set is the call of that hook
    with the key, value and tags of the call, and [BumpTime] returns what
    the hook returns; with the hook nil, [BumpAvg], [BumpSum] and
    [BumpHistogram] do nothing and [BumpTime] returns the shared
    [NoOpEnd]. *)
Theorem HookClient_calls_hook_or_nothing :
  forall (W : Type) (c : HookClient.t W) (k : string) (v : float64)
         (t : list string) (w : W),
    (forall hook, HookClient.BumpAvgHook c = Some hook ->
       HookClient.BumpAvg (Some c) k v t w = hook k v t w)
    /\ (forall hook, HookClient.BumpSumHook c = Some hook ->
       HookClient.BumpSum (Some c) k v t w = hook k v t w)
    /\ (forall hook, HookClient.BumpHistogramHook c = Some hook ->
       HookClient.BumpHistogram (Some c) k v t w = hook k v t w)
    /\ (forall hook, HookClient.BumpTimeHook c = Some hook ->
       HookClient.BumpTime (Some c) k t w = hook k t w)
    /\ (HookClient.BumpAvgHook c = None ->
       HookClient.BumpAvg (Some c) k v t w = Returned tt w)
    /\ (HookClient.BumpSumHook c = None ->
       HookClient.BumpSum (Some c) k v t w = Returned tt w)
    /\ (HookClient.BumpHistogramHook c = None ->
       HookClient.BumpHistogram (Some c) k v t w = Returned tt w)
    /\ (HookClient.BumpTimeHook c = None ->
       HookClient.BumpTime (Some c) k t w =
       Returned (noOpEnd.as_handle NoOpEnd) w).
Proof.
  intros W c k v t w.
  unfold HookClient.BumpAvg, HookClient.BumpSum, HookClient.BumpHistogram,
    HookClient.BumpTime.
  repeat match goal with |- _ /\ _ => split end;
    intros;
    rewrite bind_Returned with (a := c) (w' := w) by reflexivity;
    match goal with H : _ = _ |- _ => rewrite H end; reflexivity.
Qed.

Lemma HookClient_calls_hook_or_nothing_witness :
  HookClient.BumpAvg (Some noting) "latency" 42.5%float ["region:us"] [] =
  Returned tt ["latency"]
  /\ HookClient.BumpTime (Some hookless) "latency" ["region:us"] [] =
     Returned (noOpEnd.as_handle NoOpEnd) [].
Proof.
  split.
  - apply (proj1 (HookClient_calls_hook_or_nothing noting "latency"
                    42.5%float ["region:us"] [])
             (fun key _ _ l => Returned tt (key :: l)) eq_refl).
  - apply (proj2 (proj2 (proj2 (proj2 (proj2 (proj2 (proj2
             (HookClient_calls_hook_or_nothing hookless "latency"
                42.5%float ["region:us"] []))))))) eq_refl).
Defined.

(** C10.  [NoOpEnd] stands in for a missing client or hook only: when the
    [BumpTime] of a client that is there returns the nil handle, the
    package function returns that nil handle, and so does
    [HookClient.BumpTime] when the hook that is set returns it; nil is not
    [NoOpEnd]. *)
Theorem nil_handle_is_passed_on :
  forall (W : Type) (c : Client.methods W) (hc : HookClient.t W)
         (hook : string -> list string -> M W (handle W))
         (k : string) (t : list string) (w w' : W),
    (Client.BumpTime c k t w = Returned None w' ->
     BumpTime (Some c) k t w = Returned None w')
    /\ (HookClient.BumpTimeHook hc = Some hook ->
        hook k t w = Returned None w' ->
        HookClient.BumpTime (Some hc) k t w = Returned None w')
    /\ None <> @noOpEnd.as_handle W NoOpEnd.
Proof.
  intros W c hc hook k t w w'. split; [|split].
  - intros H. exact H.
  - intros Hset Hnil. unfold HookClient.BumpTime.
    rewrite bind_Returned with (a := hc) (w' := w) by reflexivity.
    rewrite Hset. exact Hnil.
  - discriminate.
Qed.

Lemma nil_handle_is_passed_on_witness :
  BumpTime (HookClient.as_Client (Some noting)) "op" [] [] =
  Returned None ["op"]
  /\ HookClient.BumpTime (Some noting) "op" [] [] = Returned None ["op"].
Proof.
  split.
  - apply (proj1 (nil_handle_is_passed_on
                    (HookClient.methods (Some noting)) noting
                    (fun key _ l => Returned None (key :: l)) "op" [] []
                    ["op"]) eq_refl).
  - apply (proj1 (proj2 (nil_handle_is_passed_on
                    (HookClient.methods (Some noting)) noting
                    (fun key _ l => Returned None (key :: l)) "op" [] []
                    ["op"])) eq_refl eq_refl).
Defined.

(** ** Where the calls panic *)

(** A decorator built around the nil client panics at its first call. *)
Example nil_wrapped_client_panics :
  Client.invoke (PrefixClient ["a."; "b."] (@None (Client.methods nat)))
    (fun d => Client.BumpSum d "k" 1%float []) 0 = Panicked 0.
Proof. reflexivity. Qed.

(** A nil entry stops [multiEnder.End]: the handles after it are not
    ended. *)
Example multiEnder_End_stops_at_nil :
  call_End (multiEnder.as_handle
              [recorded_handle 0 tick; None; recorded_handle 2 tock])
    ([], 0) = Panicked ([Ended 0], 1).
Proof. reflexivity. Qed.

(** The decorator over [nil_timer] returns a handle that cannot be
    ended. *)
Example collected_nil_handles_panic :
  exists h,
    Client.invoke (PrefixClient ["a."] (Some nil_timer))
      (fun d => Client.BumpTime d "k" []) 0 = Returned h 1
    /\ call_End h 1 = Panicked 1.
Proof. eexists. split; reflexivity. Qed.

(** * Further properties of the package *)

(** ** Laws of the loop *)

Section LoopLaws.
Context {W A L : Type}.

Lemma range_app (xs ys : list A) (body : A -> L -> M W L) (l : L) (w : W) :
  range (xs ++ ys) body l w = (l' <- range xs body l ;; range ys body l') w.
Proof.
  revert l w; induction xs as [|x xs IH]; intros l w.
  - reflexivity.
  - cbn [app range]. unfold bind at 1 2 3.
    destruct (body x l w) as [l1 w1|w1]; [|reflexivity].
    rewrite IH. reflexivity.
Qed.

Lemma range_ext (xs : list A) (b1 b2 : A -> L -> M W L) :
  (forall x l w, b1 x l w = b2 x l w) ->
  forall l w, range xs b1 l w = range xs b2 l w.
Proof.
  intros Hb; induction xs as [|x xs IH]; intros l w.
  - reflexivity.
  - cbn [range]. unfold bind. rewrite Hb.
    destruct (b2 x l w); [apply IH | reflexivity].
Qed.

Lemma range_map {B} (g : B -> A) (xs : list B) (body : A -> L -> M W L) l w :
  range (map g xs) body l w = range xs (fun x => body (g x)) l w.
Proof.
  revert l w; induction xs as [|x xs IH]; intros l w.
  - reflexivity.
  - cbn [map range]. unfold bind.
    destruct (body (g x) l w); [apply IH | reflexivity].
Qed.

Lemma range_flat_map {B} (f : B -> list A) (xs : list B)
  (body : A -> L -> M W L) l w :
  range (flat_map f xs) body l w =
  range xs (fun x l' => range (f x) body l') l w.
Proof.
  revert l w; induction xs as [|x xs IH]; intros l w.
  - reflexivity.
  - cbn [flat_map range]. rewrite range_app. unfold bind.
    destruct (range (f x) body l w); [apply IH | reflexivity].
Qed.

End LoopLaws.

Lemma string_append_assoc (a b c : string) :
  ((a ++ b) ++ c)%string = (a ++ (b ++ c))%string.
Proof.
  induction a as [|ch a IH]; cbn; [reflexivity | now rewrite IH].
Qed.

Section FanOut.
Context {W : Type}.

(** Seen from outside, a bump through the decorator is the loop of calls
    on the wrapped client: same result, same world, same panic. *)
Lemma invoke_prefix_bump (o : op) (c : Client W) prefixes key val tags
  (w : W) :
  Client.invoke (PrefixClient prefixes c)
    (fun d => bump_method o d key val tags) w =
  range prefixes (fun prefix _ =>
    Client.invoke c
      (fun d => bump_method o d (prefix ++ key)%string val tags)) tt w.
Proof.
  destruct o;
    cbn [PrefixClient prefixClient.as_Client prefixClient.methods
         Client.invoke bump_method Client.BumpAvg Client.BumpSum
         Client.BumpHistogram];
    unfold prefixClient.on;
    [rewrite BumpAvg_loop | rewrite BumpSum_loop | rewrite BumpHistogram_loop];
    unfold lift; cbn [fst snd prefixClient.Prefixes prefixClient.Client];
    match goal with |- context [range ?xs ?b tt w] =>
      destruct (range xs b tt w) end; reflexivity.
Qed.

End FanOut.

(** ** How decorators compose *)

(** X1.  A decorator over the prefixes [P ++ Q] does what the decorator
    over [P] does and then, if that returned, what the decorator over [Q]
    does; if the first part panics, the second is not started. *)
Theorem PrefixClient_app :
  forall (W : Type) (c : Client W) (o : op) (P Q : list string) (k : string)
         (v : float64) (t : list string) (w : W),
    Client.invoke (PrefixClient (P ++ Q) c)
      (fun d => bump_method o d k v t) w =
    (Client.invoke (PrefixClient P c) (fun d => bump_method o d k v t) ;;;
     Client.invoke (PrefixClient Q c) (fun d => bump_method o d k v t)) w.
Proof.
  intros W c o P Q k v t w.
  rewrite invoke_prefix_bump, range_app. unfold bind.
  rewrite invoke_prefix_bump.
  destruct (range P _ tt w) as [[] w1|w1]; [|reflexivity].
  rewrite invoke_prefix_bump. reflexivity.
Qed.

(** X2.  A decorator over [P1] around a decorator over [P2] does to the
    backend exactly what one decorator does whose prefixes are the strings
    [P2[j]+P1[i]], with [i] outermost: same calls, same order, same
    outcome, whether the backend returns, panics or is nil. *)
Theorem nested_PrefixClient_is_one_PrefixClient :
  forall (W : Type) (c : Client W) (o : op) (P1 P2 : list string)
         (k : string) (v : float64) (t : list string) (w : W),
    Client.invoke (PrefixClient P1 (PrefixClient P2 c))
      (fun d => bump_method o d k v t) w =
    Client.invoke
      (PrefixClient
         (flat_map (fun p1 => map (fun p2 => (p2 ++ p1)%string) P2) P1) c)
      (fun d => bump_method o d k v t) w.
Proof.
  intros W c o P1 P2 k v t w.
  rewrite !invoke_prefix_bump, range_flat_map.
  apply range_ext; intros p1 [] w0.
  rewrite invoke_prefix_bump, range_map.
  apply range_ext; intros p2 [] w1.
  now rewrite string_append_assoc.
Qed.

(** ** Where the decorator panics *)

(** X3.  [PrefixClient] accepts a nil client; every method of the result
    then panics as soon as there is a prefix to work on, before anything
    else happens. *)
Theorem PrefixClient_of_nil_panics :
  forall (W : Type) (o : op) (P : list string) (k : string) (v : float64)
         (t : list string) (w : W),
    P <> [] ->
    Client.invoke (PrefixClient P None) (fun d => bump_method o d k v t) w =
    Panicked w
    /\ Client.invoke (PrefixClient P None) (fun d => Client.BumpTime d k t) w =
       Panicked w.
Proof.
  intros W o P k v t w HP.
  destruct P as [|p P]; [contradiction HP; reflexivity|].
  split.
  - rewrite invoke_prefix_bump. reflexivity.
  - cbn [PrefixClient prefixClient.as_Client prefixClient.methods
         Client.invoke Client.BumpTime].
    unfold prefixClient.on. rewrite BumpTime_loop. reflexivity.
Qed.

Lemma PrefixClient_of_nil_panics_witness :
  Client.invoke (PrefixClient ["a."; "b."] (@None (Client.methods nat)))
    (fun d => bump_method Histogram d "k" 2%float ["t"]) 7 = Panicked 7
  /\ Client.invoke (PrefixClient ["a."; "b."] (@None (Client.methods nat)))
       (fun d => Client.BumpTime d "k" ["t"]) 7 = Panicked 7.
Proof.
  apply (@PrefixClient_of_nil_panics nat Histogram ["a."; "b."] "k" 2%float
           ["t"] 7).
  discriminate.
Defined.

Section CutShort.
Context {W : Type}.

(** The loop over a recorded backend that returns for the keys of the
    prefixes at hand. *)
Lemma recorded_loop_returning (c : Client.methods W) (o : op) key val tags
  (prefixes : list string) :
  (forall prefix, In prefix prefixes ->
     returns (bump_method o c (prefix ++ key)%string val tags)) ->
  forall (log : list call) (w : W), exists w',
    range prefixes (fun prefix _ =>
      Client.invoke (Some (recorded c))
        (fun d => bump_method o d (prefix ++ key)%string val tags)) tt
      (log, w) =
    Returned tt
      (log ++ map (fun prefix => Bump o (prefix ++ key)%string val tags)
                prefixes, w').
Proof.
  induction prefixes as [|prefix prefixes IH]; intros Hc log w.
  - exists w. cbn. now rewrite app_nil_r.
  - destruct (Hc prefix (or_introl eq_refl) w) as [[] [w1 H1]].
    destruct (IH (fun q Hq => Hc q (or_intror Hq))
                (log ++ [Bump o (prefix ++ key) val tags]) w1) as [w2 H2].
    exists w2. cbn [range map].
    rewrite bind_Returned with
      (a := tt) (w' := (log ++ [Bump o (prefix ++ key) val tags], w1)).
    + rewrite H2, <- app_assoc. reflexivity.
    + cbn [Client.invoke]. rewrite recorded_bump.
      unfold lift; cbn [fst snd]. now rewrite H1.
Qed.

End CutShort.

(** X4.  The decorator does not shield its loop: when the backend panics
    on the key of the prefix [p], the prefixes before [p] have had their
    call, [p] has had its call, and the prefixes after [p] get none; the
    panic reaches the caller. *)
Theorem prefix_bump_stops_at_panic :
  forall (W : Type) (c : Client.methods W) (o : op) (P1 : list string)
         (p : string) (P2 : list string) (k : string) (v : float64)
         (t : list string),
    (forall prefix, In prefix P1 ->
       returns (bump_method o c (prefix ++ k)%string v t)) ->
    (forall w, exists w', bump_method o c (p ++ k)%string v t w = Panicked w') ->
    forall (log : list call) (w : W),
    exists w',
      Client.invoke (PrefixClient (P1 ++ p :: P2) (Some (recorded c)))
        (fun d => bump_method o d k v t) (log, w) =
      Panicked
        (log ++ map (fun prefix => Bump o (prefix ++ k)%string v t)
                  (P1 ++ [p]), w').
Proof.
  intros W c o P1 p P2 k v t Hret Hpanic log w.
  destruct (recorded_loop_returning c o k v t P1 Hret log w) as [w1 H1].
  destruct (Hpanic w1) as [w2 H2].
  exists w2.
  rewrite invoke_prefix_bump, range_app.
  rewrite bind_Returned with (1 := H1).
  cbn [range Client.invoke]. unfold bind at 1.
  rewrite recorded_bump. unfold lift; cbn [fst snd]. rewrite H2.
  rewrite map_app, app_assoc. reflexivity.
Qed.

Lemma prefix_bump_stops_at_panic_witness :
  exists w',
    Client.invoke
      (PrefixClient (["a."] ++ "b." :: ["c."]) (Some (recorded (fragile "b.k"))))
      (fun d => bump_method Sum d "k" 1%float []) ([], 0) =
    Panicked ([Bump Sum "a.k" 1%float []; Bump Sum "b.k" 1%float []], w').
Proof.
  apply (@prefix_bump_stops_at_panic nat (fragile "b.k") Sum ["a."] "b."
           ["c."] "k" 1%float []).
  - intros prefix [Hp|[]] n. subst prefix. exists tt, (S n). reflexivity.
  - intros n. exists n. reflexivity.
Defined.

(** ** Ending many handles *)

(** X5.  [multiEnder.End] does not skip a nil entry: the handles in front
    of it are ended, in order, then the call panics and the handles behind
    it are never ended. *)
Theorem multiEnder_End_nil_entry_cuts_short :
  forall (W : Type) (es : list (Ender W))
         (rest : multiEnder.t (list call * W)),
    Forall (fun e => returns (End e)) es ->
    forall (log : list call) (w : W),
    exists w',
      call_End (multiEnder.as_handle (recorded_handles 0 es ++ None :: rest))
        (log, w) =
      Panicked (log ++ map Ended (seq 0 (length es)), w').
Proof.
  intros W es rest Hes log w.
  destruct (recorded_handles_End Hes 0 log w) as [w' [_ Hloop]].
  exists w'. cbn [call_End multiEnder.as_handle End].
  unfold multiEnder.End in *. rewrite range_app.
  rewrite bind_Returned with (1 := Hloop). reflexivity.
Qed.

Lemma multiEnder_End_nil_entry_cuts_short_witness :
  exists w',
    call_End (multiEnder.as_handle
                (recorded_handles 0 [tick; tock] ++
                 None :: recorded_handles 3 [tick]))
      ([], 0) =
    Panicked ([Ended 0; Ended 1], w').
Proof.
  apply (@multiEnder_End_nil_entry_cuts_short nat [tick; tock]
           (recorded_handles 3 [tick])).
  repeat constructor; intros n; eexists; eexists; reflexivity.
Defined.

(** X6.  A [multiEnder] keeps no note of having been ended: [n] calls of
    [End] end every wrapped handle [n] times, round after round. *)
Theorem multiEnder_End_again_ends_again :
  forall (W : Type) (es : list (Ender W)),
    Forall (fun e => returns (End e)) es ->
    forall (n : nat) (log : list call) (w : W),
    exists w',
      times n (call_End (multiEnder.as_handle (recorded_handles 0 es)))
        (log, w) =
      Returned tt
        (log ++ concat (repeat (map Ended (seq 0 (length es))) n), w').
Proof.
  intros W es Hes n; induction n as [|n IH]; intros log w.
  - exists w. cbn. now rewrite app_nil_r.
  - destruct (recorded_handles_End Hes 0 log w) as [w1 [_ H1]].
    destruct (IH (log ++ map Ended (seq 0 (length es))) w1) as [w2 H2].
    exists w2. cbn [times repeat concat].
    rewrite bind_Returned with
      (a := tt) (w' := (log ++ map Ended (seq 0 (length es)), w1)).
    + rewrite H2, <- app_assoc. reflexivity.
    + exact H1.
Qed.

Lemma multiEnder_End_again_ends_again_witness :
  exists w',
    times 2 (call_End (multiEnder.as_handle (recorded_handles 0 [tick; tock])))
      ([], 0) =
    Returned tt ([Ended 0; Ended 1; Ended 0; Ended 1], w').
Proof.
  apply (@multiEnder_End_again_ends_again nat [tick; tock]).
  repeat constructor; intros n; eexists; eexists; reflexivity.
Defined.

(** ** Timers from start to finish *)

Section TimerLoops.
Context {W : Type}.

(** Seen from outside, [BumpTime] through the decorator is the loop that
    collects the wrapped client's handles. *)
Lemma invoke_prefix_BumpTime (c : Client W) prefixes key tags (w : W) :
  Client.invoke (PrefixClient prefixes c)
    (fun d => Client.BumpTime d key tags) w =
  (m <- range prefixes (fun prefix m =>
          e <- Client.invoke c
                 (fun d => Client.BumpTime d (prefix ++ key)%string tags) ;;
          ret (m ++ [e])) [] ;;
   ret (multiEnder.as_handle m)) w.
Proof.
  cbn [PrefixClient prefixClient.as_Client prefixClient.methods
       Client.invoke Client.BumpTime].
  unfold prefixClient.on. rewrite BumpTime_loop.
  unfold lift; cbn [fst snd prefixClient.Prefixes prefixClient.Client].
  match goal with |- match match ?m w with _ => _ end with _ => _ end = _ =>
    destruct (m w) end; reflexivity.
Qed.

(** The timer loop over [timed c], for a backend that hands out handles
    whose [End] returns: the handles come back numbered from the length of
    the log on. *)
Lemma timed_loop (c : Client.methods W) key tags :
  (forall key' tags' w, exists e w',
      Client.BumpTime c key' tags' w = Returned (Some e) w'
      /\ returns (End e)) ->
  forall prefixes (m : multiEnder.t (list call * W)) (log : list call) (w : W),
  exists es w',
    Forall (fun e => returns (End e)) es
    /\ length es = length prefixes
    /\ range prefixes (fun prefix m' =>
         e <- Client.invoke (Some (timed c))
                (fun d => Client.BumpTime d (prefix ++ key)%string tags) ;;
         ret (m' ++ [e])) m (log, w) =
       Returned (m ++ recorded_handles (length log) es)
         (log ++ map (fun prefix => Time (prefix ++ key)%string tags) prefixes,
          w').
Proof.
  intros Hc prefixes; induction prefixes as [|prefix prefixes IH];
    intros m log w.
  - exists [], w. cbn. rewrite !app_nil_r. auto.
  - destruct (Hc (prefix ++ key)%string tags w) as [e [w1 [H1 He]]].
    destruct (IH (m ++ [recorded_handle (length log) e])
                (log ++ [Time (prefix ++ key) tags]) w1)
      as [es [w2 [Hes [Hlen Hloop]]]].
    exists (e :: es), w2. split; [|split].
    + constructor; assumption.
    + cbn. now rewrite Hlen.
    + cbn [range map recorded_handles].
      rewrite bind_Returned with
        (a := m ++ [recorded_handle (length log) e])
        (w' := (log ++ [Time (prefix ++ key) tags], w1)).
      * rewrite Hloop, <- !app_assoc.
        rewrite length_app, PeanoNat.Nat.add_1_r. reflexivity.
      * cbn [Client.invoke timed Client.BumpTime].
        unfold bind, record, lift, ret; cbn [fst snd]. now rewrite H1.
Qed.

(** The timer loop over a backend that hands out nil. *)
Lemma nil_handles_loop (c : Client.methods W) key tags :
  (forall key' tags' w, exists w',
      Client.BumpTime c key' tags' w = Returned None w') ->
  forall prefixes (m : multiEnder.t W) (w : W),
  exists w',
    range prefixes (fun prefix m' =>
      e <- Client.invoke (Some c)
             (fun d => Client.BumpTime d (prefix ++ key)%string tags) ;;
      ret (m' ++ [e])) m w =
    Returned (m ++ repeat None (length prefixes)) w'.
Proof.
  intros Hc prefixes; induction prefixes as [|prefix prefixes IH]; intros m w.
  - exists w. cbn. now rewrite app_nil_r.
  - destruct (Hc (prefix ++ key)%string tags w) as [w1 H1].
    destruct (IH (m ++ [None]) w1) as [w2 H2].
    exists w2. cbn [range length repeat].
    rewrite bind_Returned with (a := m ++ [None]) (w' := w1).
    + rewrite H2, <- app_assoc. reflexivity.
    + cbn [Client.invoke]. unfold bind, ret. now rewrite H1.
Qed.

(** The timer loop over a test double with no timer hook. *)
Lemma hookless_loop (hc : HookClient.t W) key tags :
  HookClient.BumpTimeHook hc = None ->
  forall prefixes (m : multiEnder.t W) (w : W),
    range prefixes (fun prefix m' =>
      e <- Client.invoke (HookClient.as_Client (Some hc))
             (fun d => Client.BumpTime d (prefix ++ key)%string tags) ;;
      ret (m' ++ [e])) m w =
    Returned (m ++ repeat (noOpEnd.as_handle NoOpEnd) (length prefixes)) w.
Proof.
  intros Hhc prefixes; induction prefixes as [|prefix prefixes IH]; intros m w.
  - cbn. now rewrite app_nil_r.
  - cbn [range length repeat].
    rewrite bind_Returned with
      (a := m ++ [noOpEnd.as_handle NoOpEnd]) (w' := w).
    + rewrite IH, <- app_assoc. reflexivity.
    + cbn [Client.invoke HookClient.as_Client HookClient.methods
           Client.BumpTime].
      unfold HookClient.BumpTime, bind, deref, ret. now rewrite Hhc.
Qed.

(** Ending any number of [NoOpEnd]s does nothing. *)
Lemma End_repeat_NoOpEnd (n : nat) (w : W) :
  multiEnder.End (repeat (noOpEnd.as_handle NoOpEnd) n) w = Returned tt w.
Proof.
  induction n as [|n IH]; [reflexivity|].
  unfold multiEnder.End in *. cbn [repeat range].
  rewrite bind_Returned with (a := tt) (w' := w); [exact IH | reflexivity].
Qed.

End TimerLoops.

(** X7.  The idiom [defer s.BumpTime(key).End()] works through the
    decorator: with a backend that hands out handles whose [End] returns,
    starting the timer calls [BumpTime] once per prefix, in order, and
    ending the returned handle then ends each of those handles once, in
    the same order. *)
Theorem prefix_BumpTime_then_End :
  forall (W : Type) (c : Client.methods W) (P : list string) (k : string)
         (t : list string),
    (forall k' t' w, exists e w',
        Client.BumpTime c k' t' w = Returned (Some e) w'
        /\ returns (End e)) ->
    forall (log : list call) (w : W),
    exists w',
      (h <- Client.invoke (PrefixClient P (Some (timed c)))
              (fun d => Client.BumpTime d k t) ;;
       call_End h) (log, w) =
      Returned tt
        ((log ++ map (fun prefix => Time (prefix ++ k)%string t) P) ++
         map Ended (seq (length log) (length P)), w').
Proof.
  intros W c P k t Hc log w.
  destruct (timed_loop c k t Hc P [] log w)
    as [es [w1 [Hes [Hlen Hloop]]]].
  destruct (recorded_handles_End Hes (length log)
              (log ++ map (fun prefix => Time (prefix ++ k)%string t) P) w1)
    as [w2 [_ HEnd]].
  exists w2. unfold bind at 1. rewrite invoke_prefix_BumpTime.
  rewrite bind_Returned with (1 := Hloop). unfold ret.
  cbn [app call_End multiEnder.as_handle End].
  rewrite HEnd, Hlen. reflexivity.
Qed.

Lemma prefix_BumpTime_then_End_witness :
  exists w',
    (h <- Client.invoke (PrefixClient ["a."; "b."] (Some (timed counting)))
            (fun d => Client.BumpTime d "op" ["t"]) ;;
     call_End h) ([Bump Sum "n" 1%float []], 0) =
    Returned tt
      ([Bump Sum "n" 1%float []; Time "a.op" ["t"]; Time "b.op" ["t"];
        Ended 1; Ended 2], w').
Proof.
  apply (@prefix_BumpTime_then_End nat counting ["a."; "b."] "op" ["t"]).
  intros k' t' n. eexists; eexists. split; [reflexivity|].
  intros m. eexists; eexists. reflexivity.
Defined.

(** X8.  The decorator collects nil handles as they come: over a backend
    whose [BumpTime] returns nil, and with at least one prefix, [BumpTime]
    returns a handle, and [End] on that handle panics wherever it is
    called. *)
Theorem prefix_BumpTime_of_nil_handles_cannot_End :
  forall (W : Type) (c : Client.methods W) (P : list string) (k : string)
         (t : list string),
    (forall k' t' w, exists w', Client.BumpTime c k' t' w = Returned None w') ->
    P <> [] ->
    forall (w : W),
    exists h w',
      Client.invoke (PrefixClient P (Some c))
        (fun d => Client.BumpTime d k t) w = Returned h w'
      /\ forall w'', call_End h w'' = Panicked w''.
Proof.
  intros W c P k t Hc HP w.
  destruct (nil_handles_loop c k t Hc P [] w) as [w' Hloop].
  exists (multiEnder.as_handle (repeat None (length P))), w'. split.
  - rewrite invoke_prefix_BumpTime.
    rewrite bind_Returned with (1 := Hloop). reflexivity.
  - destruct P as [|p P]; [contradiction HP; reflexivity|].
    intros w''. reflexivity.
Qed.

Lemma prefix_BumpTime_of_nil_handles_cannot_End_witness :
  exists h w',
    Client.invoke (PrefixClient ["a."; "b."] (Some nil_timer))
      (fun d => Client.BumpTime d "op" []) 0 = Returned h w'
    /\ forall w'', call_End h w'' = Panicked w''.
Proof.
  apply (@prefix_BumpTime_of_nil_handles_cannot_End nat nil_timer
           ["a."; "b."] "op" []).
  - intros k' t' n. exists (S n). reflexivity.
  - discriminate.
Defined.



(** X11.  Over a test double with no timer hook, starting a timer through
    the decorator and ending it is a no-op for every prefix list: both
    calls return and the world is as it was. *)
Theorem prefix_BumpTime_over_hookless_is_noop :
  forall (W : Type) (hc : HookClient.t W) (P : list string) (k : string)
         (t : list string) (w : W),
    HookClient.BumpTimeHook hc = None ->
    (h <- Client.invoke (PrefixClient P (HookClient.as_Client (Some hc)))
            (fun d => Client.BumpTime d k t) ;;
     call_End h) w = Returned tt w.
Proof.
  intros W hc P k t w Hhc.
  unfold bind at 1. rewrite invoke_prefix_BumpTime.
  rewrite bind_Returned with (1 := hookless_loop hc k t Hhc P [] w).
  unfold ret. cbn [app call_End multiEnder.as_handle End].
  apply End_repeat_NoOpEnd.
Qed.

Lemma prefix_BumpTime_over_hookless_is_noop_witness :
  (h <- Client.invoke
          (PrefixClient ["a."; "b."] (HookClient.as_Client (Some hookless)))
          (fun d => Client.BumpTime d "op" ["t"]) ;;
   call_End h) ["seen"] = Returned tt ["seen"].
Proof.
  apply (@prefix_BumpTime_over_hookless_is_noop (list string) hookless
           ["a."; "b."] "op" ["t"] ["seen"]).
  reflexivity.
Defined.

(** ** A nil pointer behind the interface *)

(** X10.  The nil test of the package functions looks at the interface,
    not at the pointer inside it: a [Client] holding a nil [*HookClient]
    is not nil, so the call goes through and panics on the first field
    read, before any hook or backend is reached. *)
Theorem package_functions_panic_on_nil_HookClient :
  forall (W : Type) (o : op) (k : string) (v : float64) (t : list string)
         (w : W),
    not_nil (HookClient.as_Client (@None (HookClient.t W))) = true
    /\ bump o (HookClient.as_Client None) k v t w = Panicked w
    /\ BumpTime (HookClient.as_Client None) k t w = Panicked w.
Proof.
  intros W o k v t w. split; [reflexivity|]. split.
  - destruct o; reflexivity.
  - reflexivity.
Qed.
